(** * DCAM4SetProperty: the MEX gateway around [dcamprop_setvalue]

    Shallow embedding of
    [source/MIC/DCAM4/DCAM4SetProperty/mexFunction.cpp] and the properties
    its specification states about it.

    The translation unit is an MSVC project ([#include "stdafx.h"]) built
    as a 64-bit MEX file, so the C++ types are read under the Windows x64
    (LLP64) data model: [unsigned long] is 4 bytes, pointers ([HDCAM],
    [mxArray*]) are 8 bytes, [int32] and the [DCAMERR] enumeration are
    4 bytes, memory is little-endian, and a [double] is converted to
    [int32] by the truncating conversion instruction of the processor
    (CVTTSD2SI). *)

From Stdlib Require Import ZArith List String Ascii Bool Lia.
From Stdlib Require Import Strings.Byte.
From Stdlib Require Import QArith Qpower Qround.
From Stdlib Require Import SpecFloat.
Import ListNotations.

Local Open Scope Z_scope.

(* ===================================================================== *)
(** ** Machine integers and raw memory *)
(* ===================================================================== *)

Module Mem.

(** [sizeof(unsigned long)] and [sizeof(mxUint64)], in bytes. *)
Definition sizeof_unsigned_long : nat := 4.
Definition sizeof_mxUint64 : nat := 8.

Definition byte_of_Z (z : Z) : byte :=
  match Byte.of_N (Z.to_N (z mod 256)) with
  | Some b => b
  | None => x00
  end.

Definition Z_of_byte (b : byte) : Z := Z.of_N (Byte.to_N b).

(** Little-endian image of an integer on [k] bytes (the value wraps
    modulo [256^k], as an unsigned store does). *)
Fixpoint encode_le (k : nat) (n : Z) : list byte :=
  match k with
  | O => []
  | S k' => byte_of_Z (n mod 256) :: encode_le k' (n / 256)
  end.

(** Unsigned integer held by a little-endian byte sequence. *)
Fixpoint decode_le (bs : list byte) : Z :=
  match bs with
  | [] => 0
  | b :: bs' => Z_of_byte b + 256 * decode_le bs'
  end.

(** [p[i]] for [p] a pointer to [width]-byte unsigned integers into the
    buffer [buf]: [None] when the element does not lie inside it. *)
Definition load_le (width : nat) (buf : list byte) (i : nat) : option Z :=
  let bs := firstn width (skipn (i * width) buf) in
  if Nat.eqb (List.length bs) width then Some (decode_le bs) else None.

End Mem.

Module Int.

Definition int32_min : Z := - 2 ^ 31.
Definition int32_max : Z := 2 ^ 31 - 1.

Definition in_int32 (z : Z) : bool := (int32_min <=? z) && (z <=? int32_max).

(** Two's-complement reduction to a signed 32-bit integer. *)
Definition to_int32 (z : Z) : Z := (z + 2 ^ 31) mod 2 ^ 32 - 2 ^ 31.

(** The bits of a 32-bit integer read as an unsigned 32-bit integer. *)
Definition to_uint32 (z : Z) : Z := z mod 2 ^ 32.

Definition to_uint64 (z : Z) : Z := z mod 2 ^ 64.

End Int.

(* ===================================================================== *)
(** ** IEEE 754 binary64 and binary32 values *)
(* ===================================================================== *)

Module Double.

(** A C [double] is a [spec_float] of precision 53 and [emax] 1024, a
    [float] one of precision 24 and [emax] 128. *)
Definition prec : Z := 53.
Definition emax : Z := 1024.

(** Integer to [double], rounding to nearest even. *)
Definition of_Z (n : Z) : spec_float := binary_normalize prec emax n 0 false.

(** [float] to [double]: every binary32 value is a binary64 value, only
    the normal form of the mantissa changes. *)
Definition of_single (x : spec_float) : spec_float :=
  match x with
  | S754_finite s m e => binary_normalize prec emax (cond_Zopp s (Zpos m)) e s
  | _ => x
  end.

(** The real number a finite value stands for. *)
Definition to_Q (x : spec_float) : option Q :=
  match x with
  | S754_zero _ => Some 0%Q
  | S754_finite s m e => Some (inject_Z (cond_Zopp s (Zpos m)) * (2 # 1) ^ e)%Q
  | S754_infinity _ | S754_nan => None
  end.

(** Rounding toward zero to an integer, as a C++ floating-integral
    conversion does; infinities and NaN have no integer part. *)
Definition truncate (x : spec_float) : option Z :=
  match x with
  | S754_zero _ => Some 0
  | S754_finite s m e =>
      Some (cond_Zopp s (if 0 <=? e then Zpos m * 2 ^ e else Zpos m / 2 ^ (- e)))
  | S754_infinity _ | S754_nan => None
  end.

(** The value C++ defines for [(int32)x]: the truncated value when
    [int32] can hold it, none otherwise ([None]). *)
Definition to_int32 (x : spec_float) : option Z :=
  match truncate x with
  | Some z => if Int.in_int32 z then Some z else None
  | None => None
  end.

(** [(int32)x] as the x64 code computes it, with CVTTSD2SI: the
    truncated value when [int32] can hold it, and the integer indefinite
    value [0x80000000], that is [-2^31], for every other operand (NaN,
    the infinities, values out of range). *)
Definition cvttsd2si (x : spec_float) : Z :=
  match to_int32 x with
  | Some z => z
  | None => Int.int32_min
  end.

End Double.

(* ===================================================================== *)
(** ** The MATLAB array interface used by the gateway *)
(* ===================================================================== *)

Module Mx.

Inductive int_class :=
| INT8 | UINT8 | INT16 | UINT16 | INT32 | UINT32 | INT64 | UINT64.

Definition bits (c : int_class) : Z :=
  match c with
  | INT8 | UINT8 => 8
  | INT16 | UINT16 => 16
  | INT32 | UINT32 => 32
  | INT64 | UINT64 => 64
  end.

Definition signed (c : int_class) : bool :=
  match c with
  | INT8 | INT16 | INT32 | INT64 => true
  | UINT8 | UINT16 | UINT32 | UINT64 => false
  end.

(** The value an element of class [c] holds when its bits are those
    of [n]. *)
Definition element (c : int_class) (n : Z) : Z :=
  if signed c
  then (n + 2 ^ (bits c - 1)) mod 2 ^ bits c - 2 ^ (bits c - 1)
  else n mod 2 ^ bits c.

(** A real (non-complex) [mxArray], by class, with its elements in
    column-major order. Cell and structure arrays carry no numeric
    data. *)
Inductive mxArray :=
| mxDoubleArray (re : list spec_float)
| mxSingleArray (re : list spec_float)
| mxIntArray (c : int_class) (re : list Z)
| mxLogicalArray (re : list bool)
| mxCharArray (re : list Z)
| mxCellArray
| mxStructArray.

(** [mxGetScalar]: the first element, converted to [double]. It has no
    result on an empty array and on a cell or structure array. *)
Definition mxGetScalar (pm : mxArray) : option spec_float :=
  match pm with
  | mxDoubleArray (x :: _) => Some x
  | mxSingleArray (x :: _) => Some (Double.of_single x)
  | mxIntArray c (n :: _) => Some (Double.of_Z (element c n))
  | mxLogicalArray (b :: _) => Some (Double.of_Z (if b then 1 else 0))
  | mxCharArray (n :: _) => Some (Double.of_Z (element UINT16 n))
  | _ => None
  end.

(** [mxGetUint64s]: the data buffer of a [uint64] array, as the bytes
    the pointer addresses. For every other class there is no such
    pointer ([None]): the call does not hand back data to index. *)
Definition mxGetUint64s (pa : mxArray) : option (list byte) :=
  match pa with
  | mxIntArray UINT64 re =>
      Some (flat_map (Mem.encode_le Mem.sizeof_mxUint64) re)
  | _ => None
  end.

End Mx.

(* ===================================================================== *)
(** ** Formatted output *)
(* ===================================================================== *)

Module Printf.

Local Open Scope string_scope.

(** The line feed a C [\n] escape denotes. *)
Definition LF : string := String "010"%char EmptyString.

Definition hex_digit_upper (d : Z) : ascii :=
  nth (Z.to_nat d) (list_ascii_of_string "0123456789ABCDEF") "?"%char.

Definition hex_digit_lower (d : Z) : ascii :=
  nth (Z.to_nat d) (list_ascii_of_string "0123456789abcdef") "?"%char.

(** Digits of a non-negative integer in base [base], most significant
    first, without leading zeros ([0] is one digit). *)
Fixpoint digits_fuel (digit : Z -> ascii) (base : Z) (fuel : nat) (n : Z)
  (acc : string) : string :=
  match fuel with
  | O => acc
  | S fuel' =>
      let acc' := String (digit (n mod base)) acc in
      if (n / base =? 0)%Z then acc'
      else digits_fuel digit base fuel' (n / base) acc'
  end.

Definition digits (digit : Z -> ascii) (base : Z) (n : Z) : string :=
  digits_fuel digit base (S (Z.to_nat (Z.log2 n))) n "".

Fixpoint replicate (k : nat) (c : ascii) : string :=
  match k with
  | O => ""
  | S k' => String c (replicate k' c)
  end.

(** Minimum field width: pad on the left, never cut. *)
Definition pad_left (width : nat) (c : ascii) (s : string) : string :=
  replicate (width - String.length s) c ++ s.

(** One conversion specification: [%], flag [0], a width, the length
    modifier [l], and the conversion character. *)
Record conv_spec := { zero_flag : bool; width : nat; long_mod : bool }.

(** The converted text of one integer argument. Under LLP64 [long] and
    [int] are both 32 bits wide, so [l] does not change which bits of
    the argument are read. *)
Definition convert (cs : conv_spec) (c : ascii) (arg : Z) : option string :=
  let pad := pad_left (width cs) (if zero_flag cs then "0"%char else " "%char) in
  if Ascii.eqb c "X" then Some (pad (digits hex_digit_upper 16 (Int.to_uint32 arg)))
  else if Ascii.eqb c "x" then Some (pad (digits hex_digit_lower 16 (Int.to_uint32 arg)))
  else if Ascii.eqb c "u" then Some (pad (digits hex_digit_lower 10 (Int.to_uint32 arg)))
  else None.

Definition is_digit (c : ascii) : bool :=
  (48 <=? nat_of_ascii c)%nat && (nat_of_ascii c <=? 57)%nat.

Inductive parse_state :=
| Text
| Flags (cs : conv_spec)
| Width (cs : conv_spec)
| Length (cs : conv_spec).

Definition finish (cs : conv_spec) (c : ascii) (args : list Z)
  (k : list Z -> option string) : option string :=
  match args with
  | [] => None
  | a :: args' =>
      match convert cs c a, k args' with
      | Some s, Some r => Some (s ++ r)
      | _, _ => None
      end
  end.

(** The text [printf] writes for a format string and its integer
    arguments; [None] when the format is outside the fragment above or
    an argument is missing. *)
Fixpoint format (st : parse_state) (fmt : string) (args : list Z) : option string :=
  match fmt with
  | EmptyString => match st with Text => Some "" | _ => None end
  | String c rest =>
      match st with
      | Text =>
          if Ascii.eqb c "%" then
            format (Flags {| zero_flag := false; width := 0; long_mod := false |}) rest args
          else option_map (String c) (format Text rest args)
      | Flags cs =>
          if Ascii.eqb c "0" then
            format (Flags {| zero_flag := true; width := width cs; long_mod := long_mod cs |}) rest args
          else if is_digit c then
            format (Width {| zero_flag := zero_flag cs; width := nat_of_ascii c - 48;
                             long_mod := long_mod cs |}) rest args
          else if Ascii.eqb c "l" then
            format (Length {| zero_flag := zero_flag cs; width := width cs; long_mod := true |}) rest args
          else finish cs c args (format Text rest)
      | Width cs =>
          if is_digit c then
            format (Width {| zero_flag := zero_flag cs;
                             width := 10 * width cs + (nat_of_ascii c - 48);
                             long_mod := long_mod cs |}) rest args
          else if Ascii.eqb c "l" then
            format (Length {| zero_flag := zero_flag cs; width := width cs; long_mod := true |}) rest args
          else finish cs c args (format Text rest)
      | Length cs => finish cs c args (format Text rest)
      end
  end.

Definition sprintf (fmt : string) (args : list Z) : option string :=
  format Text fmt args.

End Printf.

(* ===================================================================== *)
(** ** The camera SDK, as the collaborator the gateway calls *)
(* ===================================================================== *)

Module Dcam.

(** Entry points of the DCAM-API a client can invoke; a handle
    ([HDCAM]) is the 64-bit value of the pointer. *)
Inductive sdk_call :=
| dcamapi_init
| dcamapi_uninit
| dcamdev_open (index : Z)
| dcamdev_close (h : Z)
| dcamprop_getvalue (h : Z) (iProp : Z)
| dcamprop_setvalue (h : Z) (iProp : Z) (fValue : spec_float).

(** An implementation of the SDK (the vendor library, or a mock): its
    device sessions, what a call returns and does to them, and the
    header's [failed] test on a result code. *)
Class Api := {
  session : Type;
  invoke : session -> sdk_call -> Z * session;
  failed : Z -> bool
}.

End Dcam.

(* ===================================================================== *)
(** ** The gateway routine *)
(* ===================================================================== *)

Module Mex.

(** Ways the routine can leave defined behaviour. *)
Inductive fault :=
| ArgumentOutOfRange (i : nat)   (* prhs[i] past the arguments supplied *)
| NoUint64Data                   (* no uint64 data pointer to index *)
| BufferOverrun                  (* a read past the end of the data *)
| NoScalar                       (* mxGetScalar without a numeric element *)
| BadFormat.                     (* printf format or arguments malformed *)

Inductive outcome (A : Type) :=
| Returned (a : A)
| Faulted (f : fault).
Arguments Returned {A} a.
Arguments Faulted {A} f.

(** What an invocation does that the outside can observe. *)
Inductive event :=
| SdkCall (c : Dcam.sdk_call)
| ConsoleWrite (s : string).

Definition sdk_calls (evs : list event) : list Dcam.sdk_call :=
  flat_map (fun ev => match ev with SdkCall c => [c] | ConsoleWrite _ => [] end) evs.

Definition console_text (evs : list event) : string :=
  fold_right (fun ev acc =>
                match ev with
                | ConsoleWrite s => (s ++ acc)%string
                | SdkCall _ => acc
                end) EmptyString evs.

Section Gateway.

Context {api : Dcam.Api}.

(** The memory the routine can change: the caller's output slots
    [plhs[]] and the sessions the SDK holds. The inputs [prhs[]] are
    [const]. *)
Record mex_state := {
  plhs : list (option Mx.mxArray);
  sdk : Dcam.session
}.

(** Computations: state passing, the events emitted so far, and a
    fault ending the run. *)
Definition M (A : Type) : Type :=
  mex_state -> outcome A * mex_state * list event.

Definition ret {A} (a : A) : M A := fun st => (Returned a, st, []).

Definition bind {A B} (c : M A) (k : A -> M B) : M B :=
  fun st =>
    match c st with
    | (Returned a, st1, evs1) =>
        match k a st1 with
        | (r, st2, evs2) => (r, st2, evs1 ++ evs2)
        end
    | (Faulted f, st1, evs1) => (Faulted f, st1, evs1)
    end.

Definition raise {A} (f : fault) : M A := fun st => (Faulted f, st, []).

Definition emit (ev : event) : M unit := fun st => (Returned tt, st, [ev]).

Definition or_fault {A} (o : option A) (f : fault) : M A :=
  match o with
  | Some a => ret a
  | None => raise f
  end.

Notation "x <- c ;; k" := (bind c (fun x => k))
  (at level 61, c at next level, right associativity).

(** [prhs[i]] *)
Definition prhs_at (prhs : list Mx.mxArray) (i : nat) : M Mx.mxArray :=
  or_fault (nth_error prhs i) (ArgumentOutOfRange i).

(** [((unsigned long* )p)[i]] *)
Definition unsigned_long_at (p : option (list byte)) (i : nat) : M Z :=
  match p with
  | None => raise NoUint64Data
  | Some buf => or_fault (Mem.load_le Mem.sizeof_unsigned_long buf i) BufferOverrun
  end.

(** [(HDCAM)v]: an unsigned integer widened to a pointer. *)
Definition HDCAM_of_unsigned_long (v : Z) : Z := Int.to_uint64 v.

Definition mxGetScalar (pm : Mx.mxArray) : M spec_float :=
  or_fault (Mx.mxGetScalar pm) NoScalar.

(** [(int32)x]: the routine goes on with whatever the conversion
    yields. *)
Definition int32_of_double (x : spec_float) : Z := Double.cvttsd2si x.

(** The SDK call: the session changes as the SDK decides, and the
    result comes back as a [DCAMERR], a 32-bit enumeration. *)
Definition dcamprop_setvalue (h : Z) (iProp : Z) (fValue : spec_float) : M Z :=
  fun st =>
    let c := Dcam.dcamprop_setvalue h iProp fValue in
    let '(err, s') := Dcam.invoke (sdk st) c in
    (Returned (Int.to_int32 err), {| plhs := plhs st; sdk := s' |}, [SdkCall c]).

Definition mexPrintf (fmt : string) (args : list Z) : M unit :=
  s <- or_fault (Printf.sprintf fmt args) BadFormat ;;
  emit (ConsoleWrite s).

Definition error_format : string :=
  ("Error = 0x%08lX" ++ Printf.LF ++ "dcamprop_setvalue() failed." ++ Printf.LF)%string.

(** [void mexFunction(int nlhs, mxArray* plhs[], int nrhs,
    const mxArray* prhs[])]; [plhs[]] is the [plhs] field of the
    state. *)
Definition mexFunction (nlhs : Z) (nrhs : Z) (prhs : list Mx.mxArray) : M unit :=
  a0 <- prhs_at prhs 0 ;;
  let mHandle := Mx.mxGetUint64s a0 in
  v <- unsigned_long_at mHandle 0 ;;
  let handle := HDCAM_of_unsigned_long v in
  a1 <- prhs_at prhs 1 ;;
  x1 <- mxGetScalar a1 ;;
  let propertyID := int32_of_double x1 in
  a2 <- prhs_at prhs 2 ;;
  propertyValue <- mxGetScalar a2 ;;
  error <- dcamprop_setvalue handle propertyID propertyValue ;;
  if Dcam.failed error
  then mexPrintf error_format [error]
  else ret tt.

(** Two invocations one after the other. *)
Definition invoke_twice (nlhs nrhs : Z) (prhs : list Mx.mxArray) : M unit :=
  _ <- mexFunction nlhs nrhs prhs ;;
  mexFunction nlhs nrhs prhs.

End Gateway.

Arguments mex_state : clear implicits.
Arguments M : clear implicits.

End Mex.

(* ===================================================================== *)
(** ** Vocabulary of the specification *)
(* ===================================================================== *)

Module Spec.

Import Mex.

(** What the three reads of [mexFunction] deliver on an argument list:
    the handle, the property identifier and the value handed to the
    SDK, or the fault that stops the routine before the call. *)
Definition read_inputs (prhs : list Mx.mxArray) : fault + (Z * Z * spec_float) :=
  match nth_error prhs 0 with
  | None => inl (ArgumentOutOfRange 0)
  | Some a0 =>
  match Mx.mxGetUint64s a0 with
  | None => inl NoUint64Data
  | Some buf =>
  match Mem.load_le Mem.sizeof_unsigned_long buf 0 with
  | None => inl BufferOverrun
  | Some v =>
  match nth_error prhs 1 with
  | None => inl (ArgumentOutOfRange 1)
  | Some a1 =>
  match Mx.mxGetScalar a1 with
  | None => inl NoScalar
  | Some x1 =>
  match nth_error prhs 2 with
  | None => inl (ArgumentOutOfRange 2)
  | Some a2 =>
  match Mx.mxGetScalar a2 with
  | None => inl NoScalar
  | Some x2 => inr (Int.to_uint64 v, Double.cvttsd2si x1, x2)
  end end end end end end end.

(** The [k] low digits of [n] in base [base], most significant first,
    in front of [acc]. *)
Fixpoint digits_fixed (digit : Z -> ascii) (base : Z) (k : nat) (n : Z)
  (acc : string) : string :=
  match k with
  | O => acc
  | S k' => digits_fixed digit base k' (n / base) (String (digit (n mod base)) acc)
  end.

(** The eight hexadecimal digits of a 32-bit pattern, most significant
    first, upper case. *)
Definition hex8 (u : Z) : string :=
  string_of_list_ascii
    (map (fun i => Printf.hex_digit_upper ((u / 16 ^ i) mod 16)) [7; 6; 5; 4; 3; 2; 1; 0]).

(** The diagnostic of the specification for a result code. *)
Definition diagnostic (code : Z) : string :=
  ("Error = 0x" ++ hex8 (Int.to_uint32 code) ++ Printf.LF
     ++ "dcamprop_setvalue() failed." ++ Printf.LF)%string.

(** The first element of an array is the integer [n]: a [double] or a
    [float] whose value is [n], or an integer element equal to [n]. *)
Definition holds_integer (a : Mx.mxArray) (n : Z) : Prop :=
  match a with
  | Mx.mxDoubleArray (x :: _) =>
      exists q, Double.to_Q x = Some q /\ (q == inject_Z n)%Q
  | Mx.mxSingleArray (x :: _) =>
      valid_binary 24 128 x = true /\
      exists q, Double.to_Q x = Some q /\ (q == inject_Z n)%Q
  | Mx.mxIntArray c (m :: _) => Mx.element c m = n
  | _ => False
  end.

(** A [uint64] scalar, as the caller builds the handle argument. *)
Definition uint64_scalar (h : Z) : Mx.mxArray := Mx.mxIntArray Mx.UINT64 [h].

(** A [double] scalar holding an integer. *)
Definition double_scalar (n : Z) : Mx.mxArray := Mx.mxDoubleArray [Double.of_Z n].

End Spec.

(** A mock SDK: every call is recorded in the session and answered with
    the same result code; a code has failed when it is negative, as in
    the vendor's header. *)
Definition mock_sdk (code : Z) : Dcam.Api :=
  {| Dcam.session := list Dcam.sdk_call;
     Dcam.invoke := fun s c => (code, s ++ [c]);
     Dcam.failed := fun err => err <? 0 |}.

Definition mock_start (code : Z) : Mex.mex_state (mock_sdk code) :=
  @Mex.Build_mex_state (mock_sdk code) [] [].

(** Projections of the result of a run. *)
Definition outcome_of {A S} (r : Mex.outcome A * S * list Mex.event) : Mex.outcome A :=
  fst (fst r).
Definition state_of {A S} (r : Mex.outcome A * S * list Mex.event) : S :=
  snd (fst r).
Definition events_of {A S} (r : Mex.outcome A * S * list Mex.event) : list Mex.event :=
  snd r.

(** The run the specification describes once the inputs are read:
    one SDK call, and the diagnostic when the result has failed. *)
Definition run_after_read {api : Dcam.Api} (st : Mex.mex_state api)
  (h p : Z) (v : spec_float)
  : Mex.outcome unit * Mex.mex_state api * list Mex.event :=
  let c := Dcam.dcamprop_setvalue h p v in
  let err := Int.to_int32 (fst (Dcam.invoke (Mex.sdk st) c)) in
  (Mex.Returned tt,
   {| Mex.plhs := Mex.plhs st; Mex.sdk := snd (Dcam.invoke (Mex.sdk st) c) |},
   Mex.SdkCall c ::
     (if Dcam.failed err then [Mex.ConsoleWrite (Spec.diagnostic err)] else [])).

(** ** Scenarios

    The argument list of the specification's example scenario, with a
    handle above [2^32]: [(0x11A2B3C4D, 8, 1.0)]. *)
Definition wide_handle_inputs : list Mx.mxArray :=
  [Spec.uint64_scalar 0x11A2B3C4D; Spec.double_scalar 8; Spec.double_scalar 1].

(** The example scenario itself: [(0x1A2B3C4D, 8, 1.0)]. *)
Definition example_inputs : list Mx.mxArray :=
  [Spec.uint64_scalar 0x1A2B3C4D; Spec.double_scalar 8; Spec.double_scalar 1].

(** A later state of the mock: a session with history, and an output
    slot already filled. *)
Definition mock_later (code : Z) : Mex.mex_state (mock_sdk code) :=
  @Mex.Build_mex_state (mock_sdk code)
    [Some (Spec.double_scalar 5)]
    [Dcam.dcamapi_init; Dcam.dcamdev_open 0].


(** ** Vocabulary for the further properties *)

Module Reading.

(** An array cut down to its first element. *)
Definition first_element (a : Mx.mxArray) : Mx.mxArray :=
  match a with
  | Mx.mxDoubleArray (x :: _) => Mx.mxDoubleArray [x]
  | Mx.mxSingleArray (x :: _) => Mx.mxSingleArray [x]
  | Mx.mxIntArray c (n :: _) => Mx.mxIntArray c [n]
  | Mx.mxLogicalArray (b :: _) => Mx.mxLogicalArray [b]
  | Mx.mxCharArray (n :: _) => Mx.mxCharArray [n]
  | _ => a
  end.

(** The integer part of a rational, rounding toward zero. *)
Definition Qtruncate (q : Q) : Z :=
  if Qle_bool 0 q then Qfloor q else Qceiling q.

(** The real number the first element of a numeric array stands for,
    when a [double] holds that number exactly: a finite [double], a
    finite valid [float], or an integer element of magnitude below
    [2^53] (every element of the 8-, 16- and 32-bit classes). *)
Definition real_value (a : Mx.mxArray) : option Q :=
  match a with
  | Mx.mxDoubleArray (x :: _) => Double.to_Q x
  | Mx.mxSingleArray (x :: _) =>
      if valid_binary 24 128 x then Double.to_Q x else None
  | Mx.mxIntArray c (n :: _) =>
      if Z.abs (Mx.element c n) <? 2 ^ 53
      then Some (inject_Z (Mx.element c n)) else None
  | _ => None
  end.

(** The integer an upper-case hexadecimal digit denotes. *)
Definition hex_value (c : ascii) : Z :=
  let n := Z.of_nat (nat_of_ascii c) in
  if (48 <=? n) && (n <=? 57) then n - 48 else n - 55.

(** The number a string of hexadecimal digits denotes, after [v]. *)
Fixpoint unhex_from (v : Z) (s : string) : Z :=
  match s with
  | EmptyString => v
  | String c s' => unhex_from (16 * v + hex_value c) s'
  end.

End Reading.

(* ===================================================================== *)
(** * Properties *)
(* ===================================================================== *)

Module MemFacts.

Import Mem.

Lemma Z_of_byte_of_Z z : Z_of_byte (byte_of_Z z) = z mod 256.
Proof.
  unfold Z_of_byte, byte_of_Z.
  assert (Hr : 0 <= z mod 256 < 256) by (apply Z.mod_pos_bound; lia).
  destruct (Byte.of_N (Z.to_N (z mod 256))) as [b|] eqn:E.
  - apply Byte.to_of_N in E. rewrite E. apply Z2N.id. lia.
  - exfalso. apply Byte.of_N_None_iff in E. lia.
Qed.

Lemma length_encode_le k n : List.length (encode_le k n) = k.
Proof. revert n; induction k as [|k IH]; intro n; simpl; [|rewrite IH]; reflexivity. Qed.

(** Reading the first [j] bytes of a [k]-byte little-endian image keeps
    the value modulo [256^j]. *)
Lemma decode_firstn_encode j : forall k n, (j <= k)%nat ->
  decode_le (firstn j (encode_le k n)) = n mod 256 ^ Z.of_nat j.
Proof.
  induction j as [|j IH]; intros k n Hjk.
  - simpl. now rewrite Z.mod_1_r.
  - destruct k as [|k]; [lia|].
    cbn [encode_le firstn decode_le].
    rewrite IH by lia. rewrite Z_of_byte_of_Z, Z.mod_mod by lia.
    rewrite Nat2Z.inj_succ, Z.pow_succ_r by lia.
    rewrite (Z.rem_mul_r n 256 (256 ^ Z.of_nat j)) by lia. reflexivity.
Qed.

Lemma decode_encode k n : decode_le (encode_le k n) = n mod 256 ^ Z.of_nat k.
Proof.
  rewrite <- (decode_firstn_encode k k n) by lia.
  f_equal. symmetry. apply firstn_all2. rewrite length_encode_le. lia.
Qed.

(** Indexing element 0 through a pointer to [j]-byte integers, where
    the buffer starts with a [k]-byte integer. *)
Lemma load_le_encode_first j k n rest :
  (j <= k)%nat ->
  load_le j (encode_le k n ++ rest) 0 = Some (n mod 256 ^ Z.of_nat j).
Proof.
  intro Hjk. unfold load_le. cbn [Nat.mul skipn].
  rewrite firstn_app, length_encode_le.
  replace (j - k)%nat with 0%nat by lia. cbn [firstn]. rewrite app_nil_r.
  rewrite firstn_length_le by (rewrite length_encode_le; lia).
  rewrite Nat.eqb_refl. f_equal. now apply decode_firstn_encode.
Qed.

(** Through a pointer to integers as wide as the stored one, the value
    read back is the value stored. *)
Lemma load_le_same_width k n rest :
  0 <= n < 256 ^ Z.of_nat k ->
  load_le k (encode_le k n ++ rest) 0 = Some n.
Proof.
  intro Hn. rewrite load_le_encode_first by lia.
  f_equal. now apply Z.mod_small.
Qed.

(** The [unsigned long] at the start of a [uint64] data buffer is the
    low 32 bits of its first element. *)
Lemma unsigned_long_of_uint64s h hs :
  load_le sizeof_unsigned_long (flat_map (encode_le sizeof_mxUint64) (h :: hs)) 0
  = Some (h mod 2 ^ 32).
Proof.
  cbn [flat_map]. rewrite load_le_encode_first by (cbv; lia). reflexivity.
Qed.

End MemFacts.

(** ** The formatted diagnostic *)

Module PrintfFacts.

Import Printf.
Local Open Scope string_scope.

Lemma append_empty_r s : s ++ "" = s.
Proof. induction s as [|c s IH]; simpl; [|rewrite IH]; reflexivity. Qed.

(** The text the format of the routine produces for one argument. *)
Lemma sprintf_error_format err :
  sprintf (@Mex.error_format) [err] =
  Some ("Error = 0x"
          ++ pad_left 8 "0" (digits hex_digit_upper 16 (Int.to_uint32 err))
          ++ LF ++ "dcamprop_setvalue() failed." ++ LF).
Proof. reflexivity. Qed.

Section Digits.

Variable digit : Z -> ascii.
Variable base : Z.
Hypothesis base_gt_1 : (1 < base)%Z.

Lemma replicate_snoc k c s :
  replicate k c ++ String c s = String c (replicate k c ++ s).
Proof. induction k as [|k IH]; simpl; [|rewrite IH]; reflexivity. Qed.

Lemma digits_fixed_zero k : forall acc,
  Spec.digits_fixed digit base k 0 acc = replicate k (digit 0) ++ acc.
Proof.
  induction k as [|k IH]; intro acc; simpl; [reflexivity|].
  rewrite Z.div_0_l, Z.mod_0_l by lia.
  rewrite IH. apply replicate_snoc.
Qed.

Lemma length_digits_fixed k : forall n acc,
  String.length (Spec.digits_fixed digit base k n acc) = (k + String.length acc)%nat.
Proof.
  induction k as [|k IH]; intros n acc; simpl; [reflexivity|].
  rewrite IH. simpl. lia.
Qed.

(** Leading positions above the magnitude of [n] hold the digit 0. *)
Lemma digits_fixed_leading_zeros j : forall k n acc,
  (0 <= n < base ^ Z.of_nat j)%Z -> (j <= k)%nat ->
  Spec.digits_fixed digit base k n acc =
  replicate (k - j) (digit 0) ++ Spec.digits_fixed digit base j n acc.
Proof.
  induction j as [|j IH]; intros k n acc Hn Hjk.
  - simpl in Hn. assert (n = 0%Z) by lia. subst n.
    rewrite Nat.sub_0_r. apply digits_fixed_zero.
  - destruct k as [|k]; [lia|]. simpl Spec.digits_fixed.
    rewrite Nat2Z.inj_succ, Z.pow_succ_r in Hn by lia.
    rewrite (IH k);
      [reflexivity
      | split; [apply Z.div_pos; lia | apply Z.div_lt_upper_bound; lia]
      | lia].
Qed.

(** The variable-length digits are the fixed-length ones at the
    number of digits of [n]. *)
Lemma digits_fuel_fixed fuel : forall n acc,
  (0 <= n < base ^ Z.of_nat fuel)%Z -> (1 <= fuel)%nat ->
  exists j, (1 <= j <= fuel)%nat /\
            (n < base ^ Z.of_nat j)%Z /\
            (j = 1%nat \/ base ^ (Z.of_nat j - 1) <= n)%Z /\
            digits_fuel digit base fuel n acc = Spec.digits_fixed digit base j n acc.
Proof.
  induction fuel as [|fuel IH]; intros n acc Hn Hf; [lia|].
  simpl digits_fuel.
  destruct (Z.eqb_spec (n / base) 0) as [E|E].
  - exists 1%nat. split; [lia|]. split; [|split; [now left|reflexivity]].
    rewrite Z.pow_1_r.
    destruct (Z_lt_le_dec n base) as [|Hge]; [assumption|exfalso].
    assert (1 <= n / base)%Z by (apply Z.div_le_lower_bound; lia). lia.
  - assert (Hge : (base <= n)%Z).
    { destruct (Z_lt_le_dec n base) as [Hlt|]; [|assumption].
      exfalso. apply E. apply Z.div_small. lia. }
    rewrite Nat2Z.inj_succ, Z.pow_succ_r in Hn by lia.
    assert (Hf' : (1 <= fuel)%nat).
    { destruct fuel; [simpl in Hn; lia | lia]. }
    assert (Hmul : (base * (n / base) <= n < base * (n / base) + base)%Z).
    { pose proof (Z.div_mod n base ltac:(lia)).
      pose proof (Z.mod_pos_bound n base ltac:(lia)). lia. }
    destruct (IH (n / base)%Z (String (digit (n mod base)) acc))
      as (j & Hj & Hlt & Hm & Hd).
    + split; [apply Z.div_pos; lia | apply Z.div_lt_upper_bound; lia].
    + assumption.
    + exists (S j). split; [lia|]. split; [|split].
      * rewrite Nat2Z.inj_succ, Z.pow_succ_r by lia. nia.
      * right. replace (Z.of_nat (S j) - 1)%Z with (Z.of_nat j) by lia.
        destruct Hm as [->|Hm]; [simpl; lia|].
        replace (Z.of_nat j) with (Z.succ (Z.of_nat j - 1)) by lia.
        rewrite Z.pow_succ_r by lia. nia.
      * simpl. exact Hd.
Qed.

(** Zero-padding the digits of [n] to [k] positions writes exactly
    [k] digits when [n] has at most [k]. *)
Lemma pad_left_digits k n :
  (0 <= n < base ^ Z.of_nat k)%Z -> (1 <= k)%nat ->
  pad_left k (digit 0) (digits digit base n) = Spec.digits_fixed digit base k n "".
Proof.
  intros Hn Hk. unfold digits, pad_left.
  destruct (digits_fuel_fixed (S (Z.to_nat (Z.log2 n))) n "")
    as (j & Hj & Hlt & Hm & Hd).
  - split; [lia|].
    destruct (Z.eq_dec n 0) as [->|Hnz]; [apply Z.pow_pos_nonneg; lia|].
    assert (Hl : (0 <= Z.log2 n)%Z) by apply Z.log2_nonneg.
    rewrite Nat2Z.inj_succ, Z2Nat.id by lia.
    apply Z.lt_le_trans with (2 ^ Z.succ (Z.log2 n))%Z.
    + apply Z.log2_spec. lia.
    + apply Z.pow_le_mono_l. lia.
  - lia.
  - rewrite Hd, length_digits_fixed. simpl String.length. rewrite Nat.add_0_r.
    assert (Hjk : (j <= k)%nat).
    { destruct Hm as [->|Hm]; [lia|].
      destruct (le_lt_dec j k) as [|Hgt]; [assumption|exfalso].
      assert (base ^ Z.of_nat k <= base ^ (Z.of_nat j - 1))%Z
        by (apply Z.pow_le_mono_r; lia).
      lia. }
    symmetry. apply digits_fixed_leading_zeros; [lia|assumption].
Qed.

End Digits.

Lemma hex8_digits_fixed u : Spec.hex8 u = Spec.digits_fixed hex_digit_upper 16 8 u "".
Proof.
  unfold Spec.hex8. cbn [Spec.digits_fixed map string_of_list_ascii].
  repeat rewrite Z.div_div by lia.
  rewrite Z.div_1_r.
  reflexivity.
Qed.

(** [%08lX] of a 32-bit pattern is its eight hexadecimal digits. *)
Lemma pad_hex_uint32 err :
  pad_left 8 "0" (digits hex_digit_upper 16 (Int.to_uint32 err))
  = Spec.hex8 (Int.to_uint32 err).
Proof.
  rewrite hex8_digits_fixed.
  apply (pad_left_digits hex_digit_upper 16); [lia| |lia].
  unfold Int.to_uint32. change (16 ^ Z.of_nat 8)%Z with (2 ^ 32)%Z.
  apply Z.mod_pos_bound. lia.
Qed.

Lemma sprintf_error_diagnostic err :
  sprintf (@Mex.error_format) [err] = Some (Spec.diagnostic err).
Proof.
  rewrite sprintf_error_format. unfold Spec.diagnostic.
  now rewrite pad_hex_uint32.
Qed.

End PrintfFacts.

(** ** What one invocation does *)

Module MexFacts.

Import Mex.

Section Run.

Context {api : Dcam.Api}.

Lemma mexFunction_run nlhs nrhs prhs st :
  mexFunction nlhs nrhs prhs st =
  match Spec.read_inputs prhs with
  | inl f => (Faulted f, st, [])
  | inr (h, p, v) => run_after_read st h p v
  end.
Proof.
  unfold mexFunction, Spec.read_inputs, run_after_read, bind, prhs_at,
    unsigned_long_at, mxGetScalar, int32_of_double, dcamprop_setvalue,
    mexPrintf, HDCAM_of_unsigned_long.
  destruct (nth_error prhs 0) as [a0|]; [|reflexivity]. cbn [or_fault ret].
  destruct (Mx.mxGetUint64s a0) as [buf|]; [|reflexivity].
  destruct (Mem.load_le Mem.sizeof_unsigned_long buf 0) as [v|]; [|reflexivity].
  cbn [or_fault ret raise].
  destruct (nth_error prhs 1) as [a1|]; [|reflexivity]. cbn [or_fault ret raise].
  destruct (Mx.mxGetScalar a1) as [x1|]; [|reflexivity]. cbn [or_fault ret raise].
  destruct (nth_error prhs 2) as [a2|]; [|reflexivity]. cbn [or_fault ret raise].
  destruct (Mx.mxGetScalar a2) as [x2|]; [|reflexivity]. cbn [or_fault ret raise].
  destruct (Dcam.invoke (sdk st)
              (Dcam.dcamprop_setvalue (Int.to_uint64 v) (Double.cvttsd2si x1) x2))
    as [err s'] eqn:E.
  cbn [fst snd app].
  destruct (Dcam.failed (Int.to_int32 err)); [|reflexivity].
  unfold bind. rewrite PrintfFacts.sprintf_error_diagnostic. reflexivity.
Qed.

(** Events of a sequence whose first part returns. *)
Lemma events_bind_returned {A B} (c : M api A) (k : A -> M api B) st a :
  outcome_of (c st) = Returned a ->
  events_of (bind c k st) = events_of (c st) ++ events_of (k a (state_of (c st))).
Proof.
  unfold bind, outcome_of, state_of, events_of.
  destruct (c st) as [[r s1] evs1]. cbn [fst snd]. intros ->.
  destruct (k a s1) as [[r2 s2] evs2]. reflexivity.
Qed.

(** State after a sequence whose first part returns. *)
Lemma state_bind_returned {A B} (c : M api A) (k : A -> M api B) st a :
  outcome_of (c st) = Returned a ->
  state_of (bind c k st) = state_of (k a (state_of (c st))).
Proof.
  unfold bind, outcome_of, state_of.
  destruct (c st) as [[r s1] evs1]. cbn [fst snd]. intros ->.
  destruct (k a s1) as [[r2 s2] evs2]. reflexivity.
Qed.

(** The state an invocation leaves once the inputs are read: the output
    slots as they were, the sessions as the SDK call left them. *)
Lemma state_after_read nlhs nrhs prhs st h p v :
  Spec.read_inputs prhs = inr (h, p, v) ->
  state_of (mexFunction nlhs nrhs prhs st)
  = {| plhs := plhs st;
       sdk := snd (Dcam.invoke (sdk st) (Dcam.dcamprop_setvalue h p v)) |}.
Proof. intro Hread. rewrite mexFunction_run, Hread. reflexivity. Qed.

Lemma outcome_after_read nlhs nrhs prhs st h p v :
  Spec.read_inputs prhs = inr (h, p, v) ->
  outcome_of (mexFunction nlhs nrhs prhs st) = Returned tt.
Proof. intro Hread. rewrite mexFunction_run, Hread. reflexivity. Qed.

Lemma sdk_calls_after_read nlhs nrhs prhs st h p v :
  Spec.read_inputs prhs = inr (h, p, v) ->
  sdk_calls (events_of (mexFunction nlhs nrhs prhs st))
  = [Dcam.dcamprop_setvalue h p v].
Proof.
  intro Hread. rewrite mexFunction_run, Hread.
  unfold run_after_read, events_of. cbn [snd].
  destruct (Dcam.failed _); reflexivity.
Qed.

End Run.

End MexFacts.

(** ** Conversions between integers and floating-point values *)

Module DoubleFacts.

Import Double.

Lemma two_power_nonneg (e : Z) : 0 <= e -> ((2 # 1) ^ e == inject_Z (2 ^ e))%Q.
Proof. intro He. now rewrite Zpower_Qpower. Qed.

Lemma two_power_neg (e : Z) : e < 0 -> ((2 # 1) ^ e == / inject_Z (2 ^ (- e)))%Q.
Proof.
  intro He. rewrite <- two_power_nonneg by lia.
  rewrite <- Qpower_opp. now rewrite Z.opp_involutive.
Qed.

Lemma cond_Zopp_mul s a b : cond_Zopp s a * b = cond_Zopp s (a * b).
Proof. destruct s; simpl; lia. Qed.

Lemma cond_Zopp_div_exact s a b n :
  0 < b -> cond_Zopp s a = n * b -> cond_Zopp s (a / b) = n.
Proof.
  intros Hb H. destruct s; simpl in *.
  - assert (a = (- n) * b) by lia. subst a. rewrite Z.div_mul by lia. lia.
  - subst a. apply Z.div_mul. lia.
Qed.

(** A value that is an integer truncates to that integer. *)
Lemma truncate_integer x q n :
  to_Q x = Some q -> (q == inject_Z n)%Q -> truncate x = Some n.
Proof.
  destruct x as [s|s| |s m e]; simpl; try discriminate.
  - intros [= <-] H. f_equal. symmetry. now apply inject_Z_injective.
  - intros [= <-] H. f_equal.
    destruct (Z.leb_spec 0 e) as [He|He].
    + rewrite two_power_nonneg, <- inject_Z_mult in H by assumption.
      apply (proj1 (inject_Z_injective _ _)) in H. now rewrite <- H, cond_Zopp_mul.
    + rewrite two_power_neg in H by assumption.
      assert (Hp : 0 < 2 ^ (- e)) by (apply Z.pow_pos_nonneg; lia).
      apply cond_Zopp_div_exact; [assumption|].
      apply inject_Z_injective. rewrite inject_Z_mult, <- H.
      field. intro H0. change 0%Q with (inject_Z 0) in H0.
      apply (proj1 (inject_Z_injective _ _)) in H0. lia.
Qed.

Lemma to_int32_integer x q n :
  to_Q x = Some q -> (q == inject_Z n)%Q -> Int.in_int32 n = true ->
  to_int32 x = Some n.
Proof.
  intros Hq Hn Hr. unfold to_int32.
  now rewrite (truncate_integer x q n Hq Hn), Hr.
Qed.

(** Where C++ defines the conversion, the processor's conversion gives
    the defined value; elsewhere it gives [-2^31]. *)
Lemma cvttsd2si_defined x z : to_int32 x = Some z -> cvttsd2si x = z.
Proof. unfold cvttsd2si. now intros ->. Qed.

Lemma cvttsd2si_undefined x : to_int32 x = None -> cvttsd2si x = - 2 ^ 31.
Proof. unfold cvttsd2si. now intros ->. Qed.

Lemma digits2_pos_iter_xO m d :
  digits2_pos (Pos.iter xO m d) = (digits2_pos m + d)%positive.
Proof.
  induction d as [|d IH] using Pos.peano_ind.
  - simpl. lia.
  - rewrite Pos.iter_succ. simpl. rewrite IH. lia.
Qed.

Lemma Zpos_iter_xO m d : Zpos (Pos.iter xO m d) = Zpos m * 2 ^ Zpos d.
Proof.
  induction d as [|d IH] using Pos.peano_ind.
  - simpl. lia.
  - rewrite Pos.iter_succ, Pos2Z.inj_succ, Z.pow_succ_r by lia.
    rewrite Pos2Z.inj_xO, IH. lia.
Qed.

(** A mantissa already in normal form at its exponent is kept as it is
    by the rounding step. *)
Lemma binary_round_aux_canonical s m e :
  fexp prec emax (Zpos (digits2_pos m) + e) = e -> e <= emax - prec ->
  binary_round_aux prec emax s (Zpos m) e loc_Exact = S754_finite s m e.
Proof.
  intros Hc He. unfold binary_round_aux, shr_fexp.
  cbn [Zdigits2 shr_record_of_loc]. rewrite Hc, Z.sub_diag.
  cbn [shr shr_m loc_of_shr_record round_nearest_even Zdigits2 shr_record_of_loc].
  rewrite Hc, Z.sub_diag. cbn [shr shr_m].
  destruct (Z.leb_spec e (emax - prec)); [reflexivity|lia].
Qed.

Lemma binary_round_exact s m e e' :
  fexp prec emax (Zpos (digits2_pos m) + e) = e' ->
  e' <= e -> e' <= emax - prec ->
  exists m', binary_round prec emax s m e = S754_finite s m' e'
             /\ Zpos m' = Zpos m * 2 ^ (e - e').
Proof.
  intros He' Hle Hmax. unfold binary_round, shl_align. rewrite He'.
  destruct (e' - e) as [|d|d] eqn:E; [| lia |].
  - assert (Heq : e' = e) by lia. rewrite Heq in *. exists m. split.
    + apply binary_round_aux_canonical; assumption.
    + rewrite Z.sub_diag. lia.
  - exists (Pos.iter xO m d). split.
    + apply binary_round_aux_canonical; [|assumption].
      rewrite digits2_pos_iter_xO. rewrite <- He' at 2.
      unfold fexp in *. lia.
    + rewrite Zpos_iter_xO. f_equal. f_equal. lia.
Qed.

(** Normalisation is exact when the mantissa only has to be shifted
    left: the result has the exponent [fexp] asks for and the mantissa
    scaled to it. *)
Lemma binary_normalize_exact s m e sz :
  let e' := fexp prec emax (Zpos (digits2_pos m) + e) in
  e' <= e -> e' <= emax - prec ->
  exists m',
    binary_normalize prec emax (cond_Zopp s (Zpos m)) e sz = S754_finite s m' e'
    /\ Zpos m' = Zpos m * 2 ^ (e - e').
Proof.
  intros e' Hle Hmax.
  destruct s; exact (binary_round_exact _ m e e' eq_refl Hle Hmax).
Qed.

(** Hence normalisation keeps the real value. *)
Lemma binary_normalize_value s m e sz :
  let e' := fexp prec emax (Zpos (digits2_pos m) + e) in
  e' <= e -> e' <= emax - prec ->
  exists q, to_Q (binary_normalize prec emax (cond_Zopp s (Zpos m)) e sz) = Some q
            /\ (q == inject_Z (cond_Zopp s (Zpos m)) * (2 # 1) ^ e)%Q.
Proof.
  intros e' Hle Hmax.
  destruct (binary_normalize_exact s m e sz Hle Hmax) as (m' & Hn & Hm').
  rewrite Hn. fold e' in Hm' |- *. clearbody e'.
  eexists. split; [reflexivity|].
  replace (cond_Zopp s (Zpos m')) with (cond_Zopp s (Zpos m) * 2 ^ (e - e'))
    by (rewrite cond_Zopp_mul; now rewrite Hm').
  rewrite inject_Z_mult, <- two_power_nonneg by lia.
  rewrite <- Qmult_assoc, <- Qpower_plus by discriminate.
  now replace (e - e' + e') with e by lia.
Qed.

Lemma digits2_pos_le m : forall k,
  0 <= k -> Zpos m < 2 ^ k -> Zpos (digits2_pos m) <= k.
Proof.
  induction m as [m IH|m IH|]; intros k Hk Hlt; cbn [digits2_pos].
  - assert (k <> 0) by (intros ->; simpl in Hlt; lia).
    replace k with (Z.succ (k - 1)) in Hlt by lia.
    rewrite Z.pow_succ_r in Hlt by lia.
    specialize (IH (k - 1) ltac:(lia) ltac:(lia)). lia.
  - assert (k <> 0) by (intros ->; simpl in Hlt; lia).
    replace k with (Z.succ (k - 1)) in Hlt by lia.
    rewrite Z.pow_succ_r in Hlt by lia.
    specialize (IH (k - 1) ltac:(lia) ltac:(lia)). lia.
  - assert (k <> 0) by (intros ->; simpl in Hlt; lia). lia.
Qed.

(** Integers of magnitude below [2^53] are [double] values. *)
Lemma of_Z_value n :
  Z.abs n < 2 ^ 53 ->
  exists q, to_Q (of_Z n) = Some q /\ (q == inject_Z n)%Q.
Proof.
  intro Hn. unfold of_Z.
  destruct n as [|m|m].
  - exists 0%Q. now split.
  - pose proof (digits2_pos_le m 53 ltac:(lia) ltac:(simpl in Hn; lia)) as Hd.
    destruct (binary_normalize_value false m 0 false) as (q & Hq & Hv).
    + unfold fexp, emin, prec, emax. lia.
    + unfold fexp, emin, prec, emax. lia.
    + exists q. split; [exact Hq|]. rewrite Hv. simpl cond_Zopp.
      change ((2 # 1) ^ 0)%Q with 1%Q. apply Qmult_1_r.
  - pose proof (digits2_pos_le m 53 ltac:(lia) ltac:(simpl in Hn; lia)) as Hd.
    destruct (binary_normalize_value true m 0 false) as (q & Hq & Hv).
    + unfold fexp, emin, prec, emax. lia.
    + unfold fexp, emin, prec, emax. lia.
    + exists q. split; [exact Hq|]. rewrite Hv. simpl cond_Zopp.
      change ((2 # 1) ^ 0)%Q with 1%Q. apply Qmult_1_r.
Qed.

(** Widening a [float] to [double] keeps its value. *)
Lemma of_single_value x q :
  valid_binary 24 128 x = true -> to_Q x = Some q ->
  exists q', to_Q (of_single x) = Some q' /\ (q' == q)%Q.
Proof.
  destruct x as [s|s| |s m e]; simpl; try discriminate.
  - intros _ [= <-]. exists 0%Q. now split.
  - intros Hv [= <-].
    unfold bounded, canonical_mantissa in Hv.
    apply andb_prop in Hv. destruct Hv as [Hc Hb].
    apply Z.eqb_eq in Hc. apply Z.leb_le in Hb.
    unfold fexp, emin in Hc.
    apply binary_normalize_value; unfold fexp, emin, prec, emax; lia.
Qed.

(** An argument holding an integer of the [int32] range is converted
    to that integer by [(int32)mxGetScalar(...)]. *)
Lemma holds_integer_to_int32 a n :
  Spec.holds_integer a n -> Int.in_int32 n = true ->
  exists x, Mx.mxGetScalar a = Some x /\ to_int32 x = Some n.
Proof.
  intros Ha Hr.
  destruct a as [[|x xs]|[|x xs]|c [|m ms]| | | |]; simpl in Ha; try contradiction.
  - destruct Ha as (q & Hq & Hn). exists x. split; [reflexivity|].
    now apply to_int32_integer with q.
  - destruct Ha as (Hv & q & Hq & Hn).
    destruct (of_single_value x q Hv Hq) as (q' & Hq' & He).
    exists (of_single x). split; [reflexivity|].
    apply to_int32_integer with q'; [assumption| |assumption].
    now rewrite He.
  - subst n. eexists. split; [reflexivity|].
    destruct (of_Z_value (Mx.element c m)) as (q & Hq & Hn).
    + unfold Int.in_int32, Int.int32_min, Int.int32_max in Hr.
      apply andb_prop in Hr. destruct Hr as [H1 H2].
      apply Z.leb_le in H1, H2. lia.
    + now apply to_int32_integer with q.
Qed.

End DoubleFacts.

(** ** Reading a well-typed argument list *)

Module ReadFacts.

Lemma to_uint32_to_int32 err : Int.to_uint32 (Int.to_int32 err) = err mod 2 ^ 32.
Proof.
  unfold Int.to_uint32, Int.to_int32.
  rewrite Zminus_mod, Z.mod_mod, <- Zminus_mod by lia.
  f_equal. lia.
Qed.

(** A [uint64] handle, a property identifier holding an integer of the
    [int32] range and a numeric value are read as the low 32 bits of
    the handle, that integer, and the value as a [double]. *)
Lemma read_inputs_typed h0 hs a1 a2 rest n v :
  Spec.holds_integer a1 n -> Int.in_int32 n = true -> Mx.mxGetScalar a2 = Some v ->
  Spec.read_inputs (Mx.mxIntArray Mx.UINT64 (h0 :: hs) :: a1 :: a2 :: rest)
  = inr (h0 mod 2 ^ 32, n, v).
Proof.
  intros Ha Hr Hv. unfold Spec.read_inputs.
  cbn [nth_error Mx.mxGetUint64s].
  rewrite MemFacts.unsigned_long_of_uint64s.
  destruct (DoubleFacts.holds_integer_to_int32 a1 n Ha Hr) as (x & -> & Hc).
  rewrite Hv, (DoubleFacts.cvttsd2si_defined x n Hc). do 2 f_equal. f_equal.
  unfold Int.to_uint64. apply Z.mod_small.
  pose proof (Z.mod_pos_bound h0 (2 ^ 32) ltac:(lia)). lia.
Qed.

End ReadFacts.

(* ===================================================================== *)
(** * The claims of the specification *)
(* ===================================================================== *)

Import Mex.

(** The two example scenarios of the specification. *)
Example example_success :
  mexFunction (api := mock_sdk 0) 0 3 example_inputs (mock_start 0)
  = (Returned tt,
     @Build_mex_state (mock_sdk 0) [] [Dcam.dcamprop_setvalue 0x1A2B3C4D 8 (Double.of_Z 1)],
     [SdkCall (Dcam.dcamprop_setvalue 0x1A2B3C4D 8 (Double.of_Z 1))]).
Proof. reflexivity. Qed.

Example example_failure :
  console_text
    (events_of (mexFunction (api := mock_sdk 0x80000001) 0 3 example_inputs
                  (mock_start 0x80000001)))
  = ("Error = 0x80000001" ++ Printf.LF ++ "dcamprop_setvalue() failed." ++ Printf.LF)%string.
Proof. reflexivity. Qed.

(** When the SDK reports success for a well-typed triple whose handle is
    below [2^32], exactly one [dcamprop_setvalue] call is made with the
    handle, the property identifier and the value of the inputs, and
    nothing is printed. *)
Lemma success_small_handle (api : Dcam.Api) nlhs nrhs st h0 hs a1 a2 rest n v :
  0 <= h0 < 2 ^ 32 ->
  Spec.holds_integer a1 n -> Int.in_int32 n = true -> Mx.mxGetScalar a2 = Some v ->
  Dcam.failed
    (Int.to_int32 (fst (Dcam.invoke (sdk st) (Dcam.dcamprop_setvalue h0 n v)))) = false ->
  events_of (mexFunction nlhs nrhs
               (Mx.mxIntArray Mx.UINT64 (h0 :: hs) :: a1 :: a2 :: rest) st)
  = [SdkCall (Dcam.dcamprop_setvalue h0 n v)].
Proof.
  intros Hh Ha Hr Hv Hok.
  rewrite MexFacts.mexFunction_run, (ReadFacts.read_inputs_typed h0 hs a1 a2 rest n v Ha Hr Hv).
  rewrite Z.mod_small by assumption.
  unfold run_after_read, events_of. cbn [snd]. now rewrite Hok.
Qed.

(** C1, evaluated where it fails: on the well-typed triple
    [(0x11A2B3C4D, 8, 1.0)] with an SDK that returns success (0), one
    [dcamprop_setvalue] call is made and nothing is printed, but the
    handle of that call is [0x1A2B3C4D], not the handle supplied. *)
Theorem success_call_drops_high_handle_bits :
  let r := mexFunction (api := mock_sdk 0) 0 3 wide_handle_inputs (mock_start 0) in
  outcome_of r = Returned tt
  /\ sdk_calls (events_of r) = [Dcam.dcamprop_setvalue 0x1A2B3C4D 8 (Double.of_Z 1)]
  /\ console_text (events_of r) = EmptyString
  /\ 0x1A2B3C4D <> 0x11A2B3C4D.
Proof.
  cbv zeta. rewrite MexFacts.mexFunction_run.
  repeat split. discriminate.
Qed.

(** C2: when the result code of the SDK call has failed, the text
    written is [Error = 0x], the eight upper-case hexadecimal digits of
    the 32-bit code, a line feed, [dcamprop_setvalue() failed.] and a
    line feed, and nothing else. *)
Theorem failure_diagnostic_text (api : Dcam.Api) nlhs nrhs prhs st h p v :
  Spec.read_inputs prhs = inr (h, p, v) ->
  let err := fst (Dcam.invoke (sdk st) (Dcam.dcamprop_setvalue h p v)) in
  Dcam.failed (Int.to_int32 err) = true ->
  console_text (events_of (mexFunction nlhs nrhs prhs st))
  = ("Error = 0x" ++ Spec.hex8 (err mod 2 ^ 32) ++ Printf.LF
       ++ "dcamprop_setvalue() failed." ++ Printf.LF)%string.
Proof.
  intros Hread err Hfail.
  rewrite MexFacts.mexFunction_run, Hread.
  unfold run_after_read, events_of. cbn [snd]. fold err. rewrite Hfail.
  cbn [console_text fold_right]. rewrite PrintfFacts.append_empty_r.
  unfold Spec.diagnostic. now rewrite ReadFacts.to_uint32_to_int32.
Qed.

Lemma failure_diagnostic_text_witness :
  console_text
    (events_of (mexFunction (api := mock_sdk 0x80000001) 0 3 example_inputs
                  (mock_start 0x80000001)))
  = ("Error = 0x" ++ "80000001" ++ Printf.LF
       ++ "dcamprop_setvalue() failed." ++ Printf.LF)%string.
Proof.
  apply (failure_diagnostic_text (mock_sdk 0x80000001) 0 3 example_inputs
           (mock_start 0x80000001) 0x1A2B3C4D 8 (Double.of_Z 1));
    reflexivity.
Defined.

(** C3: whatever result code the SDK returns, an invocation whose inputs
    were read returns normally to the caller, with no value. *)
Theorem sdk_result_never_propagated (api : Dcam.Api) nlhs nrhs prhs st h p v :
  Spec.read_inputs prhs = inr (h, p, v) ->
  outcome_of (mexFunction nlhs nrhs prhs st) = Returned tt.
Proof.
  intro Hread. rewrite MexFacts.mexFunction_run, Hread. reflexivity.
Qed.

Lemma sdk_result_never_propagated_witness :
  outcome_of (mexFunction (api := mock_sdk 0x80000001) 0 3 example_inputs
                (mock_start 0x80000001))
  = Returned tt.
Proof.
  apply (sdk_result_never_propagated (mock_sdk 0x80000001) 0 3 example_inputs
           (mock_start 0x80000001) 0x1A2B3C4D 8 (Double.of_Z 1)).
  reflexivity.
Defined.

(** The handle handed to the SDK is the [uint64] input reduced modulo
    [2^32]: the data is read through a pointer to [unsigned long]. *)
Lemma handle_passed_modulo_2_32 (api : Dcam.Api) nlhs nrhs st h0 hs a1 a2 rest n v :
  Spec.holds_integer a1 n -> Int.in_int32 n = true -> Mx.mxGetScalar a2 = Some v ->
  sdk_calls (events_of (mexFunction nlhs nrhs
                          (Mx.mxIntArray Mx.UINT64 (h0 :: hs) :: a1 :: a2 :: rest) st))
  = [Dcam.dcamprop_setvalue (h0 mod 2 ^ 32) n v].
Proof.
  intros Ha Hr Hv.
  rewrite MexFacts.mexFunction_run, (ReadFacts.read_inputs_typed h0 hs a1 a2 rest n v Ha Hr Hv).
  unfold run_after_read, events_of. cbn [snd].
  destruct (Dcam.failed _); reflexivity.
Qed.

(** C4, evaluated where it fails: for the 64-bit handle [0x11A2B3C4D]
    the handle of the SDK call is [0x1A2B3C4D], whatever the SDK
    implementation and the state the routine starts in. *)
Theorem wide_handle_is_truncated (api : Dcam.Api) nlhs nrhs st :
  sdk_calls (events_of (mexFunction nlhs nrhs wide_handle_inputs st))
  = [Dcam.dcamprop_setvalue 0x1A2B3C4D 8 (Double.of_Z 1)].
Proof.
  rewrite MexFacts.mexFunction_run.
  change (Spec.read_inputs wide_handle_inputs)
    with (@inr fault _ (0x1A2B3C4D, 8, Double.of_Z 1)).
  unfold run_after_read, events_of. cbn [snd].
  destruct (Dcam.failed _); reflexivity.
Qed.

(** C5: when the property-identifier argument holds an integer [n] of
    the signed 32-bit range, as a [double], a [float] or an integer class
    (the 64-bit ones included), the property identifier of the SDK call
    is [n]. *)
Theorem property_id_is_the_int32_value
  (api : Dcam.Api) nlhs nrhs st h0 hs a1 a2 rest n v :
  Spec.holds_integer a1 n -> Int.in_int32 n = true -> Mx.mxGetScalar a2 = Some v ->
  exists h,
    sdk_calls (events_of (mexFunction nlhs nrhs
                            (Mx.mxIntArray Mx.UINT64 (h0 :: hs) :: a1 :: a2 :: rest) st))
    = [Dcam.dcamprop_setvalue h n v].
Proof.
  intros Ha Hr Hv. exists (h0 mod 2 ^ 32).
  rewrite MexFacts.mexFunction_run, (ReadFacts.read_inputs_typed h0 hs a1 a2 rest n v Ha Hr Hv).
  unfold run_after_read, events_of. cbn [snd].
  destruct (Dcam.failed _); reflexivity.
Qed.

Lemma property_id_is_the_int32_value_witness :
  exists h,
    sdk_calls (events_of (mexFunction (api := mock_sdk 0) 0 3
                            (Mx.mxIntArray Mx.UINT64 [0x1A2B3C4D]
                               :: Mx.mxIntArray Mx.INT64 [2031888]
                               :: Mx.mxDoubleArray [Double.of_Z 1] :: []) (mock_start 0)))
    = [Dcam.dcamprop_setvalue h 2031888 (Double.of_Z 1)].
Proof.
  apply (property_id_is_the_int32_value (mock_sdk 0) 0 3 (mock_start 0)
           0x1A2B3C4D [] (Mx.mxIntArray Mx.INT64 [2031888])
           (Mx.mxDoubleArray [Double.of_Z 1]) [] 2031888 (Double.of_Z 1));
    reflexivity.
Defined.

(** C6: the routine returns no value and leaves the caller's output
    slots [plhs[]] as they were, on every path. *)
Theorem output_slots_unchanged (api : Dcam.Api) nlhs nrhs prhs st :
  plhs (state_of (mexFunction nlhs nrhs prhs st)) = plhs st.
Proof.
  rewrite MexFacts.mexFunction_run.
  destruct (Spec.read_inputs prhs) as [f|[[h p] v]]; reflexivity.
Qed.

(** C7: no invocation makes more than one SDK call, and one whose
    inputs are read applies the SDK's [dcamprop_setvalue] exactly once,
    whatever the result code: the sessions afterwards are those one
    application of the SDK left. A second invocation with the same
    arguments reads the same inputs and applies the SDK once more, to
    the sessions the first one left: two calls with identical arguments
    reach the SDK, and nothing of the first invocation is kept but what
    the SDK itself keeps. *)
Theorem one_call_per_invocation (api : Dcam.Api) nlhs nrhs prhs st :
  let first := mexFunction nlhs nrhs prhs st in
  let second := mexFunction nlhs nrhs prhs (state_of first) in
  let twice := invoke_twice nlhs nrhs prhs st in
  (List.length (sdk_calls (events_of first)) <= 1)%nat
  /\ forall h p v,
      Spec.read_inputs prhs = inr (h, p, v) ->
      let c := Dcam.dcamprop_setvalue h p v in
      let s1 := snd (Dcam.invoke (sdk st) c) in
      let s2 := snd (Dcam.invoke s1 c) in
      sdk_calls (events_of first) = [c]
      /\ sdk (state_of first) = s1
      /\ sdk_calls (events_of second) = [c]
      /\ sdk (state_of second) = s2
      /\ events_of twice = events_of first ++ events_of second
      /\ state_of twice = state_of second
      /\ sdk_calls (events_of twice) = [c; c]
      /\ sdk (state_of twice) = s2.
Proof.
  intros first second twice. split.
  - unfold first. rewrite MexFacts.mexFunction_run.
    destruct (Spec.read_inputs prhs) as [f|[[h p] v]]; [cbn; lia|].
    unfold run_after_read, events_of. cbn [snd].
    destruct (Dcam.failed _); cbn; lia.
  - intros h p v Hread c s1 s2.
    assert (Hone : forall s, sdk_calls (events_of (mexFunction nlhs nrhs prhs s)) = [c])
      by (intro s; now apply MexFacts.sdk_calls_after_read).
    assert (Hst : forall s, sdk (state_of (mexFunction nlhs nrhs prhs s))
                            = snd (Dcam.invoke (sdk s) c))
      by (intro s; now rewrite (MexFacts.state_after_read nlhs nrhs prhs s h p v Hread)).
    assert (Hret : outcome_of (mexFunction nlhs nrhs prhs st) = Returned tt)
      by now apply MexFacts.outcome_after_read with h p v.
    assert (Hev : events_of twice = events_of first ++ events_of second)
      by exact (MexFacts.events_bind_returned (mexFunction nlhs nrhs prhs)
                  (fun _ => mexFunction nlhs nrhs prhs) st tt Hret).
    assert (Hstate : state_of twice = state_of second)
      by exact (MexFacts.state_bind_returned (mexFunction nlhs nrhs prhs)
                  (fun _ => mexFunction nlhs nrhs prhs) st tt Hret).
    assert (H2 : sdk (state_of second) = s2).
    { unfold second. rewrite Hst. unfold first. now rewrite Hst. }
    split; [apply Hone|]. split; [apply Hst|]. split; [apply Hone|].
    split; [exact H2|]. split; [exact Hev|]. split; [exact Hstate|].
    split; [|now rewrite Hstate].
    rewrite Hev. unfold sdk_calls. rewrite flat_map_app.
    fold (sdk_calls (events_of first)). fold (sdk_calls (events_of second)).
    unfold first, second. now rewrite !Hone.
Qed.

Lemma one_call_per_invocation_witness :
  let c := Dcam.dcamprop_setvalue 0x1A2B3C4D 8 (Double.of_Z 1) in
  let first := mexFunction (api := mock_sdk 0x80000001) 0 3 example_inputs
                 (mock_start 0x80000001) in
  let second := mexFunction 0 3 example_inputs (state_of first) in
  let twice := invoke_twice 0 3 example_inputs (mock_start 0x80000001) in
  sdk_calls (events_of first) = [c]
  /\ sdk (state_of first) = [c]
  /\ sdk_calls (events_of second) = [c]
  /\ sdk (state_of second) = [c; c]
  /\ events_of twice = events_of first ++ events_of second
  /\ state_of twice = state_of second
  /\ sdk_calls (events_of twice) = [c; c]
  /\ sdk (state_of twice) = [c; c].
Proof.
  exact (proj2 (one_call_per_invocation (mock_sdk 0x80000001) 0 3 example_inputs
                  (mock_start 0x80000001))
           0x1A2B3C4D 8 (Double.of_Z 1) eq_refl).
Defined.

(** C8: the only SDK entry point an invocation reaches is
    [dcamprop_setvalue], at most once; the sessions the SDK holds are
    left as they were, or as that one call left them. No session is
    opened, closed or otherwise touched by the routine. *)
Theorem only_set_property_reaches_the_sdk (api : Dcam.Api) nlhs nrhs prhs st :
  let r := mexFunction nlhs nrhs prhs st in
  (sdk_calls (events_of r) = [] /\ sdk (state_of r) = sdk st)
  \/ (exists h p v,
         sdk_calls (events_of r) = [Dcam.dcamprop_setvalue h p v]
         /\ sdk (state_of r) = snd (Dcam.invoke (sdk st) (Dcam.dcamprop_setvalue h p v))).
Proof.
  cbv zeta. rewrite MexFacts.mexFunction_run.
  destruct (Spec.read_inputs prhs) as [f|[[h p] v]].
  - left. split; reflexivity.
  - right. exists h, p, v. unfold run_after_read, events_of, state_of.
    cbn [fst snd sdk]. split; [|reflexivity].
    destruct (Dcam.failed _); reflexivity.
Qed.

(** C9: the result of an invocation does not depend on [nrhs], and with
    fewer than three arguments supplied the routine indexes [prhs[]]
    past the arguments: at index 0 with none, at index 1 with a handle
    only, at index 2 with a handle and a property identifier. *)
Theorem argument_count_never_checked (api : Dcam.Api) nlhs st :
  (forall nrhs nrhs' prhs,
      mexFunction nlhs nrhs prhs st = mexFunction nlhs nrhs' prhs st)
  /\ (forall nrhs,
         outcome_of (mexFunction nlhs nrhs [] st) = Faulted (ArgumentOutOfRange 0))
  /\ (forall nrhs h,
         outcome_of (mexFunction nlhs nrhs [Spec.uint64_scalar h] st)
         = Faulted (ArgumentOutOfRange 1))
  /\ (forall nrhs h,
         outcome_of (mexFunction nlhs nrhs [Spec.uint64_scalar h; Spec.double_scalar 8] st)
         = Faulted (ArgumentOutOfRange 2)).
Proof.
  split; [|split; [|split]].
  - intros nrhs nrhs' prhs. reflexivity.
  - intro nrhs. reflexivity.
  - intros nrhs h. rewrite MexFacts.mexFunction_run.
    unfold Spec.read_inputs, Spec.uint64_scalar. cbn [nth_error Mx.mxGetUint64s].
    rewrite MemFacts.unsigned_long_of_uint64s. reflexivity.
  - intros nrhs h. rewrite MexFacts.mexFunction_run.
    unfold Spec.read_inputs, Spec.uint64_scalar. cbn [nth_error Mx.mxGetUint64s].
    rewrite MemFacts.unsigned_long_of_uint64s. reflexivity.
Qed.

(** C10: two runs on the same argument list in which the SDK answers
    the call with the same result code end the same way and emit the
    same events (the same SDK call with the same arguments, the same
    text), whatever the sessions, the output slots and the argument
    counts of each run. *)
Theorem same_inputs_same_observables
  (api : Dcam.Api) nlhs nrhs nlhs' nrhs' prhs (st st' : mex_state api) :
  (forall h p v,
      Spec.read_inputs prhs = inr (h, p, v) ->
      fst (Dcam.invoke (sdk st) (Dcam.dcamprop_setvalue h p v))
      = fst (Dcam.invoke (sdk st') (Dcam.dcamprop_setvalue h p v))) ->
  outcome_of (mexFunction nlhs nrhs prhs st) = outcome_of (mexFunction nlhs' nrhs' prhs st')
  /\ events_of (mexFunction nlhs nrhs prhs st) = events_of (mexFunction nlhs' nrhs' prhs st').
Proof.
  intro Hsame. rewrite !MexFacts.mexFunction_run.
  destruct (Spec.read_inputs prhs) as [f|[[h p] v]]; [split; reflexivity|].
  unfold run_after_read, outcome_of, events_of. cbn [fst snd].
  rewrite (Hsame h p v eq_refl). split; reflexivity.
Qed.

Lemma same_inputs_same_observables_witness :
  outcome_of (mexFunction (api := mock_sdk 0x80000001) 0 3 example_inputs
                (mock_start 0x80000001))
  = outcome_of (mexFunction 1 4 example_inputs (mock_later 0x80000001))
  /\ events_of (mexFunction 0 3 example_inputs (mock_start 0x80000001))
     = events_of (mexFunction 1 4 example_inputs (mock_later 0x80000001)).
Proof.
  apply (same_inputs_same_observables (mock_sdk 0x80000001) 0 3 1 4 example_inputs
           (mock_start 0x80000001) (mock_later 0x80000001)).
  intros h p v _. reflexivity.
Defined.

(* ===================================================================== *)
(** * Further properties of the routine *)
(* ===================================================================== *)

Module ReadingFacts.

Import Reading.

Lemma mxGetScalar_first_element a :
  Mx.mxGetScalar (first_element a) = Mx.mxGetScalar a.
Proof.
  destruct a as [[|x xs]|[|x xs]|c [|m ms]|[|b bs]|[|m ms]| |]; reflexivity.
Qed.

(** The handle word read from an argument: the [unsigned long] at the
    start of its [uint64] data. *)
Lemma handle_word_first_element a :
  match Mx.mxGetUint64s (first_element a) with
  | Some buf => Some (Mem.load_le Mem.sizeof_unsigned_long buf 0)
  | None => None
  end
  = match Mx.mxGetUint64s a with
    | Some buf => Some (Mem.load_le Mem.sizeof_unsigned_long buf 0)
    | None => None
    end.
Proof.
  destruct a as [[|x xs]|[|x xs]|c [|m ms]|[|b bs]|[|m ms]| |]; try reflexivity.
  destruct c; reflexivity.
Qed.

Lemma read_inputs_first_element a0 a1 a2 :
  Spec.read_inputs [first_element a0; first_element a1; first_element a2]
  = Spec.read_inputs [a0; a1; a2].
Proof.
  unfold Spec.read_inputs. cbn [nth_error].
  pose proof (handle_word_first_element a0) as H0.
  rewrite !mxGetScalar_first_element.
  destruct (Mx.mxGetUint64s (first_element a0)) as [b|];
    destruct (Mx.mxGetUint64s a0) as [b'|]; try discriminate; [|reflexivity].
  injection H0 as ->. reflexivity.
Qed.

Lemma read_inputs_first_three prhs :
  Spec.read_inputs (map first_element (firstn 3 prhs)) = Spec.read_inputs prhs.
Proof.
  destruct prhs as [|a0 [|a1 [|a2 rest]]]; cbn [firstn map].
  - reflexivity.
  - unfold Spec.read_inputs. cbn [nth_error].
    pose proof (handle_word_first_element a0) as H0.
    destruct (Mx.mxGetUint64s (first_element a0)) as [b|];
      destruct (Mx.mxGetUint64s a0) as [b'|]; try discriminate; [|reflexivity].
    injection H0 as ->. reflexivity.
  - unfold Spec.read_inputs. cbn [nth_error].
    pose proof (handle_word_first_element a0) as H0.
    rewrite !mxGetScalar_first_element.
    destruct (Mx.mxGetUint64s (first_element a0)) as [b|];
      destruct (Mx.mxGetUint64s a0) as [b'|]; try discriminate; [|reflexivity].
    injection H0 as ->. reflexivity.
  - apply read_inputs_first_element.
Qed.

(** The handle read from a [uint64] first argument. *)
Lemma read_inputs_handle h0 hs rest h p v :
  Spec.read_inputs (Mx.mxIntArray Mx.UINT64 (h0 :: hs) :: rest) = inr (h, p, v) ->
  h = h0 mod 2 ^ 32.
Proof.
  unfold Spec.read_inputs. cbn [nth_error Mx.mxGetUint64s].
  rewrite MemFacts.unsigned_long_of_uint64s.
  destruct rest as [|a1 [|a2 rest]]; cbn [nth_error]; try discriminate;
    destruct (Mx.mxGetScalar a1) as [x1|]; try discriminate.
  destruct (Mx.mxGetScalar a2) as [x2|]; [|discriminate].
  intros [= <- _ _]. unfold Int.to_uint64. apply Z.mod_small.
  pose proof (Z.mod_pos_bound h0 (2 ^ 32) ltac:(lia)). lia.
Qed.

(** The SDK calls of a run, by what the reads delivered. *)
Lemma sdk_calls_run (api : Dcam.Api) nlhs nrhs prhs st :
  Mex.sdk_calls (events_of (Mex.mexFunction nlhs nrhs prhs st))
  = match Spec.read_inputs prhs with
    | inl _ => []
    | inr (h, p, v) => [Dcam.dcamprop_setvalue h p v]
    end.
Proof.
  rewrite MexFacts.mexFunction_run.
  destruct (Spec.read_inputs prhs) as [f|[[h p] v]]; [reflexivity|].
  unfold run_after_read, events_of. cbn [snd].
  destruct (Dcam.failed _); reflexivity.
Qed.

End ReadingFacts.

(** X1: whenever the SDK is called on a [uint64] handle argument, the
    handle it receives is the first element of that argument reduced
    modulo [2^32], whatever the other arguments are. *)
Theorem sdk_handle_is_low_32_bits
  (api : Dcam.Api) nlhs nrhs st h0 hs rest h p v :
  sdk_calls (events_of (mexFunction nlhs nrhs
                          (Mx.mxIntArray Mx.UINT64 (h0 :: hs) :: rest) st))
  = [Dcam.dcamprop_setvalue h p v] ->
  h = h0 mod 2 ^ 32 /\ 0 <= h < 2 ^ 32.
Proof.
  rewrite ReadingFacts.sdk_calls_run.
  destruct (Spec.read_inputs _) as [f|[[h' p'] v']] eqn:E; [discriminate|].
  intros [= -> -> ->].
  apply ReadingFacts.read_inputs_handle in E. subst h. split; [reflexivity|].
  apply Z.mod_pos_bound. lia.
Qed.

Lemma sdk_handle_is_low_32_bits_witness :
  0x1A2B3C4D = 0xFFFFFFFF1A2B3C4D mod 2 ^ 32 /\ 0 <= 0x1A2B3C4D < 2 ^ 32.
Proof.
  apply (sdk_handle_is_low_32_bits (mock_sdk 0) 0 3 (mock_start 0)
           0xFFFFFFFF1A2B3C4D [7] [Spec.double_scalar 8; Spec.double_scalar 1]
           0x1A2B3C4D 8 (Double.of_Z 1)).
  reflexivity.
Defined.

(** X3: only the first element of each of the first three arguments is
    read: further arguments and further elements change nothing. *)
Theorem only_first_elements_of_three_arguments_read
  (api : Dcam.Api) nlhs nrhs prhs st :
  mexFunction nlhs nrhs (map Reading.first_element (firstn 3 prhs)) st
  = mexFunction nlhs nrhs prhs st.
Proof.
  rewrite !MexFacts.mexFunction_run.
  now rewrite ReadingFacts.read_inputs_first_three.
Qed.

(** X4: unless the first argument is a non-empty [uint64] array, the
    routine faults at the handle read: the SDK is not called and nothing
    is printed, whatever the other arguments are. A handle supplied as a
    [double] is such an argument. *)
Theorem handle_must_be_uint64 (api : Dcam.Api) nlhs nrhs a0 rest st :
  (forall h hs, a0 <> Mx.mxIntArray Mx.UINT64 (h :: hs)) ->
  exists f, (f = NoUint64Data \/ f = BufferOverrun)
            /\ mexFunction nlhs nrhs (a0 :: rest) st = (Faulted f, st, []).
Proof.
  intro Hnot. rewrite MexFacts.mexFunction_run.
  unfold Spec.read_inputs. cbn [nth_error].
  destruct a0 as [re|re|c re| re | re | |];
    try (exists NoUint64Data; split; [now left|reflexivity]).
  destruct c; try (exists NoUint64Data; split; [now left|reflexivity]).
  destruct re as [|h hs]; [|now destruct (Hnot h hs)].
  exists BufferOverrun. split; [now right|reflexivity].
Qed.

Lemma handle_must_be_uint64_witness :
  exists f, (f = NoUint64Data \/ f = BufferOverrun)
            /\ mexFunction (api := mock_sdk 0) 0 3
                 (Spec.double_scalar 0x1A2B3C4D
                    :: [Spec.double_scalar 8; Spec.double_scalar 1]) (mock_start 0)
               = (Faulted f, mock_start 0, []).
Proof.
  apply (handle_must_be_uint64 (mock_sdk 0) 0 3 (Spec.double_scalar 0x1A2B3C4D)
           [Spec.double_scalar 8; Spec.double_scalar 1] (mock_start 0)).
  intros h hs. discriminate.
Defined.

(** X5: once the inputs are read, the console stays silent exactly when
    the result code has not failed. *)
Theorem silent_iff_not_failed (api : Dcam.Api) nlhs nrhs prhs st h p v :
  Spec.read_inputs prhs = inr (h, p, v) ->
  let err := fst (Dcam.invoke (sdk st) (Dcam.dcamprop_setvalue h p v)) in
  console_text (events_of (mexFunction nlhs nrhs prhs st)) = EmptyString
  <-> Dcam.failed (Int.to_int32 err) = false.
Proof.
  intros Hread err. rewrite MexFacts.mexFunction_run, Hread.
  unfold run_after_read, events_of. cbn [snd]. fold err.
  destruct (Dcam.failed (Int.to_int32 err)); cbn [console_text fold_right].
  - split; discriminate.
  - split; reflexivity.
Qed.

Lemma silent_iff_not_failed_witness :
  console_text (events_of (mexFunction (api := mock_sdk 1) 0 3 example_inputs (mock_start 1)))
  = EmptyString
  <-> @Dcam.failed (mock_sdk 1) (Int.to_int32 1) = false.
Proof.
  apply (silent_iff_not_failed (mock_sdk 1) 0 3 example_inputs (mock_start 1)
           0x1A2B3C4D 8 (Double.of_Z 1)).
  reflexivity.
Defined.

Module TruncationFacts.

Import Double Reading.

(** The floor of a positive mantissa scaled by a power of two. *)
Lemma Qfloor_scaled m e :
  Qfloor (inject_Z (Zpos m) * (2 # 1) ^ e)
  = if 0 <=? e then Zpos m * 2 ^ e else Zpos m / 2 ^ (- e).
Proof.
  destruct (Z.leb_spec 0 e) as [He|He].
  - rewrite DoubleFacts.two_power_nonneg, <- inject_Z_mult by assumption.
    apply Qfloor_Z.
  - rewrite DoubleFacts.two_power_neg by assumption.
    assert (Hp : 0 < 2 ^ (- e)) by (apply Z.pow_pos_nonneg; lia).
    destruct (2 ^ (- e)) as [|pk|pk] eqn:E; try lia.
    change (inject_Z (Zpos m) * / inject_Z (Zpos pk))%Q
      with (inject_Z (Zpos m) / inject_Z (Zpos pk))%Q.
    rewrite <- Qmake_Qdiv. reflexivity.
Qed.

Lemma scaled_positive m e : (0 < inject_Z (Zpos m) * (2 # 1) ^ e)%Q.
Proof.
  apply Qmult_lt_0_compat; [reflexivity|].
  apply Qpower_0_lt. reflexivity.
Qed.

(** The integer part [(int32)x] keeps is the real value of [x] rounded
    toward zero. *)
Lemma truncate_Qtruncate x q :
  to_Q x = Some q -> truncate x = Some (Qtruncate q).
Proof.
  destruct x as [s|s| |s m e]; cbn [to_Q truncate]; try discriminate.
  - intros [= <-]. reflexivity.
  - intros [= <-]. f_equal. unfold Qtruncate.
    pose proof (scaled_positive m e) as Hpos.
    rewrite <- Qfloor_scaled.
    destruct s; cbn [cond_Zopp].
    + assert (Hq : (inject_Z (- Zpos m) * (2 # 1) ^ e
                    == - (inject_Z (Zpos m) * (2 # 1) ^ e))%Q)
        by (rewrite inject_Z_opp; ring).
      destruct (Qle_bool 0 (inject_Z (- Zpos m) * (2 # 1) ^ e)) eqn:B.
      * exfalso. apply Qle_bool_iff in B. rewrite Hq in B.
        apply Qopp_lt_compat in Hpos. apply (Qlt_not_le _ _ Hpos).
        exact B.
      * assert (Hq' : (- (inject_Z (- Zpos m) * (2 # 1) ^ e)
                       == inject_Z (Zpos m) * (2 # 1) ^ e)%Q)
          by (rewrite Hq; apply Qopp_involutive).
        unfold Qceiling. now rewrite (Qfloor_comp _ _ Hq').
    + destruct (Qle_bool 0 (inject_Z (Zpos m) * (2 # 1) ^ e)) eqn:B.
      * reflexivity.
      * exfalso. apply Qlt_le_weak, Qle_bool_iff in Hpos. congruence.
Qed.

Lemma to_int32_Qtruncate x q :
  to_Q x = Some q -> Int.in_int32 (Qtruncate q) = true ->
  to_int32 x = Some (Qtruncate q).
Proof.
  intros Hq Hr. unfold to_int32. now rewrite (truncate_Qtruncate x q Hq), Hr.
Qed.

End TruncationFacts.

Module ScalarFacts.

Import Double Reading.

Lemma Qtruncate_comp q q' : (q == q')%Q -> Qtruncate q = Qtruncate q'.
Proof.
  intro H. unfold Qtruncate.
  assert (Hb : Qle_bool 0 q = Qle_bool 0 q').
  { destruct (Qle_bool 0 q) eqn:B; destruct (Qle_bool 0 q') eqn:B';
      try reflexivity; exfalso.
    - apply Qle_bool_iff in B. rewrite H in B. apply Qle_bool_iff in B. congruence.
    - apply Qle_bool_iff in B'. rewrite <- H in B'. apply Qle_bool_iff in B'. congruence. }
  rewrite Hb. destruct (Qle_bool 0 q').
  - now apply Qfloor_comp.
  - now apply Qceiling_comp.
Qed.

(** [mxGetScalar] keeps the real value of an element a [double] can
    hold. *)
Lemma mxGetScalar_exact a q :
  real_value a = Some q ->
  exists x q', Mx.mxGetScalar a = Some x /\ to_Q x = Some q' /\ (q' == q)%Q.
Proof.
  destruct a as [[|x xs]|[|x xs]|c [|m ms]| | | |]; cbn [real_value]; try discriminate.
  - intro Hq. exists x, q. split; [reflexivity|split; [assumption|reflexivity]].
  - destruct (valid_binary 24 128 x) eqn:Hv; [|discriminate]. intro Hq.
    destruct (DoubleFacts.of_single_value x q Hv Hq) as (q' & Hq' & He).
    exists (of_single x), q'. split; [reflexivity|split; assumption].
  - destruct (Z.ltb_spec (Z.abs (Mx.element c m)) (2 ^ 53)) as [Hb|]; [|discriminate].
    intros [= <-].
    destruct (DoubleFacts.of_Z_value (Mx.element c m) Hb) as (q' & Hq' & He).
    exists (of_Z (Mx.element c m)), q'. split; [reflexivity|split; assumption].
Qed.

Lemma to_int32_of_real_value a q :
  real_value a = Some q ->
  exists x, Mx.mxGetScalar a = Some x
            /\ to_int32 x = if Int.in_int32 (Qtruncate q)
                            then Some (Qtruncate q) else None.
Proof.
  intro Hq. destruct (mxGetScalar_exact a q Hq) as (x & q' & Hx & Hq' & He).
  exists x. split; [assumption|].
  unfold to_int32. rewrite (TruncationFacts.truncate_Qtruncate x q' Hq').
  now rewrite (Qtruncate_comp q' q He).
Qed.

Lemma cvttsd2si_of_real_value a q :
  real_value a = Some q ->
  exists x, Mx.mxGetScalar a = Some x
            /\ cvttsd2si x = if Int.in_int32 (Qtruncate q)
                             then Qtruncate q else - 2 ^ 31.
Proof.
  intro Hq. destruct (to_int32_of_real_value a q Hq) as (x & Hx & Hc).
  exists x. split; [assumption|].
  unfold cvttsd2si. rewrite Hc. now destruct (Int.in_int32 (Qtruncate q)).
Qed.

End ScalarFacts.

(** X6: a property identifier with a fraction is rounded toward zero:
    when the integer part of the argument's value lies in the signed
    32-bit range, that integer part is the property identifier of the
    SDK call. *)
Theorem fractional_property_id_rounds_toward_zero
  (api : Dcam.Api) nlhs nrhs st h0 hs a1 a2 rest q v :
  Reading.real_value a1 = Some q ->
  Int.in_int32 (Reading.Qtruncate q) = true ->
  Mx.mxGetScalar a2 = Some v ->
  sdk_calls (events_of (mexFunction nlhs nrhs
                          (Mx.mxIntArray Mx.UINT64 (h0 :: hs) :: a1 :: a2 :: rest) st))
  = [Dcam.dcamprop_setvalue (h0 mod 2 ^ 32) (Reading.Qtruncate q) v].
Proof.
  intros Hq Hr Hv. rewrite ReadingFacts.sdk_calls_run.
  unfold Spec.read_inputs. cbn [nth_error Mx.mxGetUint64s].
  rewrite MemFacts.unsigned_long_of_uint64s.
  destruct (ScalarFacts.cvttsd2si_of_real_value a1 q Hq) as (x & -> & ->).
  rewrite Hr, Hv.
  do 2 f_equal. unfold Int.to_uint64. apply Z.mod_small.
  pose proof (Z.mod_pos_bound h0 (2 ^ 32) ltac:(lia)). lia.
Qed.

(** The [double] value [-8.75]. *)
Definition double_minus_8_75 : spec_float := S754_finite true 4925812092436480 (-49).

Lemma fractional_property_id_rounds_toward_zero_witness :
  sdk_calls (events_of (mexFunction (api := mock_sdk 1) 0 3
                          (Mx.mxIntArray Mx.UINT64 [0x1A2B3C4D]
                             :: Mx.mxDoubleArray [double_minus_8_75]
                             :: Spec.double_scalar 1 :: []) (mock_start 1)))
  = [Dcam.dcamprop_setvalue 0x1A2B3C4D (-8) (Double.of_Z 1)].
Proof.
  apply (fractional_property_id_rounds_toward_zero (mock_sdk 1) 0 3 (mock_start 1)
           0x1A2B3C4D [] (Mx.mxDoubleArray [double_minus_8_75]) (Spec.double_scalar 1) []
           (inject_Z (Z.neg 4925812092436480) * (2 # 1) ^ (-49))%Q (Double.of_Z 1));
    reflexivity.
Defined.



(** X8: a value argument a [double] can hold (a finite [double] or
    [float], an integer of magnitude below [2^53]) reaches the SDK as a
    [double] of exactly the same real value. *)
Theorem value_reaches_sdk_exactly
  (api : Dcam.Api) nlhs nrhs st h0 hs a1 a2 rest n q :
  Spec.holds_integer a1 n -> Int.in_int32 n = true ->
  Reading.real_value a2 = Some q ->
  exists v q',
    sdk_calls (events_of (mexFunction nlhs nrhs
                            (Mx.mxIntArray Mx.UINT64 (h0 :: hs) :: a1 :: a2 :: rest) st))
    = [Dcam.dcamprop_setvalue (h0 mod 2 ^ 32) n v]
    /\ Double.to_Q v = Some q' /\ (q' == q)%Q.
Proof.
  intros Ha Hr Hq.
  destruct (ScalarFacts.mxGetScalar_exact a2 q Hq) as (v & q' & Hv & Hq' & He).
  exists v, q'. split; [|split; assumption].
  rewrite ReadingFacts.sdk_calls_run.
  now rewrite (ReadFacts.read_inputs_typed h0 hs a1 a2 rest n v Ha Hr Hv).
Qed.

Lemma value_reaches_sdk_exactly_witness :
  exists v q',
    sdk_calls (events_of (mexFunction (api := mock_sdk 1) 0 3
                            (Mx.mxIntArray Mx.UINT64 [0x1A2B3C4D]
                               :: Mx.mxIntArray Mx.INT32 [2031888]
                               :: Mx.mxIntArray Mx.INT64 [-9007199254740991] :: [])
                            (mock_start 1)))
    = [Dcam.dcamprop_setvalue (0x1A2B3C4D mod 2 ^ 32) 2031888 v]
    /\ Double.to_Q v = Some q' /\ (q' == inject_Z (-9007199254740991))%Q.
Proof.
  apply (value_reaches_sdk_exactly (mock_sdk 1) 0 3 (mock_start 1)
           0x1A2B3C4D [] (Mx.mxIntArray Mx.INT32 [2031888])
           (Mx.mxIntArray Mx.INT64 [-9007199254740991]) [] 2031888
           (inject_Z (-9007199254740991)));
    reflexivity.
Defined.

Module DiagnosticFacts.

Import Reading.
Local Open Scope string_scope.

Lemma hex_value_digit d :
  0 <= d < 16 -> hex_value (Printf.hex_digit_upper d) = d.
Proof.
  intro Hd.
  assert (H : d = 0 \/ d = 1 \/ d = 2 \/ d = 3 \/ d = 4 \/ d = 5 \/ d = 6 \/ d = 7 \/
              d = 8 \/ d = 9 \/ d = 10 \/ d = 11 \/ d = 12 \/ d = 13 \/ d = 14 \/ d = 15)
    by lia.
  repeat (destruct H as [->|H]; [reflexivity|]). subst d. reflexivity.
Qed.

(** Reading back the digits written for [n] on [k] positions. *)
Lemma unhex_digits_fixed k : forall v n acc,
  unhex_from v (Spec.digits_fixed Printf.hex_digit_upper 16 k n acc)
  = unhex_from (v * 16 ^ Z.of_nat k + n mod 16 ^ Z.of_nat k) acc.
Proof.
  induction k as [|k IH]; intros v n acc.
  - cbn [Spec.digits_fixed]. f_equal. change (16 ^ Z.of_nat 0) with 1.
    rewrite Z.mod_1_r. lia.
  - cbn [Spec.digits_fixed]. rewrite IH. cbn [unhex_from].
    rewrite hex_value_digit by (apply Z.mod_pos_bound; lia).
    f_equal. rewrite Nat2Z.inj_succ, Z.pow_succ_r by lia.
    rewrite (Z.rem_mul_r n 16 (16 ^ Z.of_nat k)) by lia. lia.
Qed.

Lemma unhex_hex8 u : unhex_from 0 (Spec.hex8 u) = u mod 2 ^ 32.
Proof.
  rewrite PrintfFacts.hex8_digits_fixed, unhex_digits_fixed. reflexivity.
Qed.

(** The digits of the code sit at offset 10 of the diagnostic. *)
Lemma substring_diagnostic err :
  substring 10 8 (Spec.diagnostic err) = Spec.hex8 (Int.to_uint32 err).
Proof. reflexivity. Qed.

(** The diagnostic determines the 32-bit result code. *)
Lemma diagnostic_injective err err' :
  Spec.diagnostic err = Spec.diagnostic err' ->
  Int.to_uint32 err = Int.to_uint32 err'.
Proof.
  intro H. apply (f_equal (substring 10 8)) in H.
  rewrite !substring_diagnostic in H.
  apply (f_equal (unhex_from 0)) in H. rewrite !unhex_hex8 in H.
  unfold Int.to_uint32 in *. now rewrite !Z.mod_mod in H by lia.
Qed.

Lemma to_int32_of_uint32 err err' :
  Int.to_uint32 err = Int.to_uint32 err' -> Int.to_int32 err = Int.to_int32 err'.
Proof.
  unfold Int.to_uint32, Int.to_int32. intro H.
  rewrite <- (Zplus_mod_idemp_l err), <- (Zplus_mod_idemp_l err'). now rewrite H.
Qed.

End DiagnosticFacts.

(** X9: the diagnostic tells the result code: two failing invocations,
    whatever their inputs, SDK and state, that print the same text had
    the same [DCAMERR] returned by the SDK. *)
Theorem same_diagnostic_same_result_code
  (api api' : Dcam.Api) nlhs nrhs nlhs' nrhs' prhs prhs'
  (st : mex_state api) (st' : mex_state api') h p v h' p' v' :
  Spec.read_inputs prhs = inr (h, p, v) ->
  Spec.read_inputs prhs' = inr (h', p', v') ->
  let err := Int.to_int32 (fst (Dcam.invoke (sdk st) (Dcam.dcamprop_setvalue h p v))) in
  let err' := Int.to_int32 (fst (Dcam.invoke (sdk st') (Dcam.dcamprop_setvalue h' p' v'))) in
  @Dcam.failed api err = true ->
  @Dcam.failed api' err' = true ->
  console_text (events_of (mexFunction nlhs nrhs prhs st))
  = console_text (events_of (mexFunction nlhs' nrhs' prhs' st')) ->
  err = err'.
Proof.
  intros Hread Hread' err err' Hf Hf'.
  rewrite !MexFacts.mexFunction_run, Hread, Hread'.
  unfold run_after_read, events_of. cbn [snd]. fold err err'. rewrite Hf, Hf'.
  cbn [console_text fold_right]. rewrite !PrintfFacts.append_empty_r.
  intro H. apply DiagnosticFacts.diagnostic_injective in H.
  apply DiagnosticFacts.to_int32_of_uint32 in H.
  unfold err, err' in *.
  assert (Hid : forall z, Int.to_int32 (Int.to_int32 z) = Int.to_int32 z).
  { intro z. unfold Int.to_int32.
    replace ((z + 2 ^ 31) mod 2 ^ 32 - 2 ^ 31 + 2 ^ 31) with ((z + 2 ^ 31) mod 2 ^ 32) by lia.
    now rewrite Z.mod_mod by lia. }
  now rewrite !Hid in H.
Qed.

Lemma same_diagnostic_same_result_code_witness :
  Int.to_int32 (fst (@Dcam.invoke (mock_sdk 0x80000001) (sdk (mock_start 0x80000001))
                       (Dcam.dcamprop_setvalue 0x1A2B3C4D 8 (Double.of_Z 1))))
  = Int.to_int32 (fst (@Dcam.invoke (mock_sdk (-2147483647)) (sdk (mock_later (-2147483647)))
                         (Dcam.dcamprop_setvalue 0x1A2B3C4D 8 (Double.of_Z 1)))).
Proof.
  apply (same_diagnostic_same_result_code
           (mock_sdk 0x80000001) (mock_sdk (-2147483647)) 0 3 1 4
           example_inputs wide_handle_inputs
           (mock_start 0x80000001) (mock_later (-2147483647))
           0x1A2B3C4D 8 (Double.of_Z 1) 0x1A2B3C4D 8 (Double.of_Z 1));
    reflexivity.
Defined.
